(** * The Nguyen-Widrow weight initialisation rule of mlpack

    Shallow embedding of
    [src/mlpack/methods/ann/init_rules/nguyen_widrow_init.hpp]:
    the class [NguyenWidrowInitialization], its constructor and its
    member function [Initialize].

    Numbers.  A C++ [double] is embedded as an extended real: a finite
    value carries a real number and arithmetic on finite values is
    exact, so rounding, overflow and underflow of an operation on finite
    operands are abstracted away; the three special values
    [+Inf], [-Inf] and [NaN] and the IEEE 754 rules that produce them
    (a zero divisor, [0 * Inf], [Inf - Inf]) are kept.  Zero carries no
    sign; the only divisor in the source is a norm, which is never a
    negative zero.  A [size_t] is embedded as [N]; the only integer
    operation of the source is the division [1 / n_rows], which cannot
    wrap around. *)

From Stdlib Require Import Reals Lra List NArith ZArith Lia.
Import ListNotations.

Open Scope R_scope.

(** ** Doubles *)

Inductive double : Type :=
| Fin (r : R)
| PInf
| NInf
| NaN.

Definition is_finite (x : double) : Prop :=
  match x with Fin _ => True | _ => False end.

(** Strictly positive and strictly negative values, the infinities
    included; a NaN and a zero are neither. *)
Definition is_positive (x : double) : Prop :=
  match x with Fin r => 0 < r | PInf => True | _ => False end.

Definition is_negative (x : double) : Prop :=
  match x with Fin r => r < 0 | NInf => True | _ => False end.

(** The infinity that has the sign of [s]; [NaN] when [s] is zero.  This is
    the value of [s * Inf] and of [s / 0]. *)
Definition signed_inf (s : R) : double :=
  if Rlt_dec 0 s then PInf else if Rlt_dec s 0 then NInf else NaN.

(** Arithmetic.  Every case with a special value follows IEEE 754; on two
    finite operands the result is the exact real result. *)
Definition dadd (x y : double) : double :=
  match x, y with
  | Fin a, Fin b => Fin (a + b)
  | NaN, _ | _, NaN => NaN
  | PInf, NInf | NInf, PInf => NaN
  | PInf, _ | _, PInf => PInf
  | NInf, _ | _, NInf => NInf
  end.

Definition dmul (x y : double) : double :=
  match x, y with
  | Fin a, Fin b => Fin (a * b)
  | NaN, _ | _, NaN => NaN
  | Fin a, PInf | PInf, Fin a => signed_inf a
  | Fin a, NInf | NInf, Fin a => signed_inf (- a)
  | PInf, PInf | NInf, NInf => PInf
  | PInf, NInf | NInf, PInf => NInf
  end.

Definition ddiv (x y : double) : double :=
  match x, y with
  | Fin a, Fin b => if Req_dec_T b 0 then signed_inf a else Fin (a / b)
  | NaN, _ | _, NaN => NaN
  | Fin _, PInf | Fin _, NInf => Fin 0
  | PInf, Fin b => if Rlt_dec b 0 then NInf else PInf
  | NInf, Fin b => if Rlt_dec b 0 then PInf else NInf
  | PInf, PInf | PInf, NInf | NInf, PInf | NInf, NInf => NaN
  end.

Definition dsqrt (x : double) : double :=
  match x with
  | Fin a => if Rlt_dec a 0 then NaN else Fin (sqrt a)
  | PInf => PInf
  | NInf | NaN => NaN
  end.

(** Conversion of a [size_t] to [double]. *)
Definition of_size_t (n : N) : double := Fin (IZR (Z.of_N n)).

(** [std::pow] as the source reaches it: with an exponent that is an
    unsigned integer promoted to [double].  On such an exponent the power
    is the iterated product, and [pow(x, 0)] is [1] for every [x], a NaN
    included. *)
Definition pow (x : double) (k : N) : double :=
  N.iter k (dmul x) (Fin 1).

(** ** Outcomes of a call

    A call returns normally, lets an exception reach its caller, or runs
    into undefined behaviour. *)

Inductive failure : Type :=
| InvalidDimension
| DegenerateNorm.

Inductive outcome (A : Type) : Type :=
| Returned (a : A)
| Thrown (f : failure)
| Undefined.

Arguments Returned {A} a.
Arguments Thrown {A} f.
Arguments Undefined {A}.

Definition bind {A B : Type} (m : outcome A) (k : A -> outcome B) : outcome B :=
  match m with
  | Returned a => k a
  | Thrown f => Thrown f
  | Undefined => Undefined
  end.

Notation "x <- m ;; k" := (bind m (fun x => k))
  (at level 61, m at next level, right associativity).

(** Division of two [size_t]: undefined for a zero divisor, truncating
    otherwise. *)
Definition size_t_div (a b : N) : outcome N :=
  if (b =? 0)%N then Undefined else Returned (a / b)%N.

(** ** Matrices

    [arma::mat]: the two dimensions and the entries, column after column. *)

Module arma.

Record mat : Type := Mat {
  n_rows : N;
  n_cols : N;
  mem : list double
}.

(** [W *= s]: every entry is multiplied by the scalar, the shape stays. *)
Definition inplace_mul (W : mat) (s : double) : mat :=
  {| n_rows := n_rows W;
     n_cols := n_cols W;
     mem := map (fun x => dmul x s) (mem W) |}.

(** Sum of the squares of the entries, accumulated from the left. *)
Definition sum_sq (l : list double) (acc : double) : double :=
  fold_left (fun a x => dadd a (dmul x x)) l acc.

(** Modelled from the spec: [arma::norm], which is not part of the
    repository.  The specification takes it as the whole-matrix
    Euclidean norm, and the class comment of the source writes
    [n = sqrt (sum of w_i^2)]. *)
Definition frobenius (W : mat) : double :=
  dsqrt (sum_sq (mem W) (Fin 0)).

End arma.

(** ** The initialiser object *)

Record NguyenWidrowInitialization : Type := {
  lowerBound : double;
  upperBound : double
}.

(** The constructor.  Both arguments have a default; [None] stands for an
    omitted argument. *)
Definition construct (lo hi : option double) : NguyenWidrowInitialization :=
  {| lowerBound := match lo with Some l => l | None => Fin (-0.5) end;
     upperBound := match hi with Some u => u | None => Fin 0.5 end |}.

(** [double beta = 0.7 * std::pow(n_cols, 1 / n_rows);]
    The quotient [1 / n_rows] has two [size_t] operands. *)
Definition beta (n_rows n_cols : N) : outcome double :=
  e <- size_t_div 1 n_rows ;;
  Returned (dmul (Fin 0.7) (pow (of_size_t n_cols) e)).

(** The formula of the specification and of the class comment,
    [0.7 * H^(1/I)], with the exponent a real number. *)
Definition beta_real (n_rows n_cols : N) : R :=
  0.7 * Rpower (IZR (Z.of_N n_cols)) (1 / IZR (Z.of_N n_rows)).

Section Initialize.

(** State of the random source the filler draws from. *)
Variable G : Type.

(** [RandomInitialization<MatType>::Initialize], declared in
    [random_init.hpp]: built from the two bounds, it receives the matrix
    and the requested shape, consumes the random source and leaves the
    filled matrix. *)
Variable randomInit :
  double -> double -> arma.mat -> N -> N -> G -> arma.mat * G.

(** [arma::norm]. *)
Variable norm : arma.mat -> double.

(** What a call can read and write: the initialiser object, the matrix
    passed by reference and the random source. *)
Record world : Type := World {
  this : NguyenWidrowInitialization;
  W : arma.mat;
  gen : G
}.

Definition Initialize (n_rows n_cols : N) (w : world) : outcome world :=
  let (W1, g1) :=
    randomInit (lowerBound (this w)) (upperBound (this w))
               (W w) n_rows n_cols (gen w) in
  b <- beta n_rows n_cols ;;
  Returned {| this := this w;
              W := arma.inplace_mul W1 (ddiv b (norm W1));
              gen := g1 |}.

End Initialize.

Arguments this {G} w.
Arguments W {G} w.
Arguments gen {G} w.
Arguments World {G} this W gen.
Arguments Initialize {G} randomInit norm n_rows n_cols w.

(** ** A deterministic filler and a concrete run environment *)

(** Modelled from the spec: the uniform random filler, whose source
    [random_init.hpp] is not at hand, as a reproducible stand-in.  It sets
    the matrix to [n_rows] x [n_cols]; the random source is a list of draws
    made in advance, of which the first [n_rows * n_cols] become the
    entries, and the lower bound is used once the list is exhausted. *)
Definition stub_randomInit (lo hi : double) (W0 : arma.mat)
    (n_rows n_cols : N) (g : list double) : arma.mat * list double :=
  let k := N.to_nat (n_rows * n_cols) in
  (arma.Mat n_rows n_cols (firstn k g ++ repeat lo (k - length g)),
   skipn k g).

(** The matrix a caller owns before the first call. *)
Definition empty_mat : arma.mat := arma.Mat 0 0 [].

(** Six draws from [[-0.5, 0.5]] for a 3 x 2 matrix. *)
Definition draws_3_2 : list double :=
  [Fin 0.5; Fin (-0.5); Fin 0.5; Fin (-0.5); Fin 0; Fin 0].

(** Five draws from [[-1, 1]] for a 1 x 5 matrix. *)
Definition draws_1_5 : list double :=
  [Fin 1; Fin (-1); Fin 1; Fin (-1); Fin 0].

(** ** Basic facts about doubles and about [beta] *)

Lemma signed_inf_not_finite (s : R) : ~ is_finite (signed_inf s).
Proof.
  unfold signed_inf.
  destruct (Rlt_dec 0 s); [|destruct (Rlt_dec s 0)]; simpl; tauto.
Qed.

Lemma signed_inf_pos (s : R) : 0 < s -> signed_inf s = PInf.
Proof.
  intros Hs. unfold signed_inf.
  destruct (Rlt_dec 0 s) as [_|Hn]; [reflexivity | contradiction].
Qed.

Lemma signed_inf_zero : signed_inf 0 = NaN.
Proof.
  unfold signed_inf.
  destruct (Rlt_dec 0 0) as [H|_]; [lra|].
  destruct (Rlt_dec 0 0) as [H|_]; [lra|reflexivity].
Qed.

Lemma ddiv_fin (a b : R) : b <> 0 -> ddiv (Fin a) (Fin b) = Fin (a / b).
Proof.
  intros Hb. simpl. destruct (Req_dec_T b 0); [contradiction | reflexivity].
Qed.

Lemma ddiv_zero (a : R) : ddiv (Fin a) (Fin 0) = signed_inf a.
Proof.
  simpl. destruct (Req_dec_T 0 0) as [_|H]; [reflexivity | now elim H].
Qed.

Lemma dmul_PInf_not_finite (x : double) : ~ is_finite (dmul x PInf).
Proof.
  destruct x; simpl; try tauto. apply signed_inf_not_finite.
Qed.

Lemma dmul_NaN_r (x : double) : dmul x NaN = NaN.
Proof. destruct x; reflexivity. Qed.

Lemma pow_0 (x : double) : pow x 0 = Fin 1.
Proof. reflexivity. Qed.

Lemma pow_1_fin (r : R) : pow (Fin r) 1 = Fin (r * 1).
Proof. reflexivity. Qed.

Lemma size_t_div_zero (a : N) : size_t_div a 0 = Undefined.
Proof. reflexivity. Qed.

Lemma size_t_div_one_one : size_t_div 1 1 = Returned 1%N.
Proof. reflexivity. Qed.

Lemma size_t_div_one_ge2 (b : N) : (2 <= b)%N -> size_t_div 1 b = Returned 0%N.
Proof.
  intros Hb. unfold size_t_div.
  destruct (N.eqb_spec b 0) as [->|_]; [lia|].
  f_equal. apply N.div_small. lia.
Qed.

Lemma beta_zero_rows (n_cols : N) : beta 0 n_cols = Undefined.
Proof. reflexivity. Qed.

Lemma beta_one_row (n_cols : N) :
  beta 1 n_cols = Returned (Fin (0.7 * IZR (Z.of_N n_cols))).
Proof.
  unfold beta. rewrite size_t_div_one_one.
  cbn [bind]. unfold of_size_t. rewrite pow_1_fin.
  cbn [dmul]. do 2 f_equal. ring.
Qed.

Lemma beta_ge2_rows (n_rows n_cols : N) :
  (2 <= n_rows)%N -> beta n_rows n_cols = Returned (Fin 0.7).
Proof.
  intros H. unfold beta. rewrite (size_t_div_one_ge2 _ H).
  cbn [bind]. rewrite pow_0.
  cbn [dmul]. do 2 f_equal. ring.
Qed.

(** For a positive number of rows [beta] is defined, finite and not
    negative. *)
Lemma beta_defined (n_rows n_cols : N) :
  (0 < n_rows)%N ->
  exists b, beta n_rows n_cols = Returned (Fin b) /\ 0 <= b.
Proof.
  intros H. destruct (N.eq_dec n_rows 1) as [->|Hne].
  - eexists. split; [apply beta_one_row|].
    apply Rmult_le_pos; [lra|]. apply IZR_le. lia.
  - exists 0.7. split; [apply beta_ge2_rows; lia | lra].
Qed.

Lemma Returned_inj {A : Type} (a b : A) : Returned a = Returned b -> a = b.
Proof. intros H. now injection H. Qed.

Lemma Fin_inj (a b : R) : Fin a = Fin b -> a = b.
Proof. intros H. now injection H. Qed.

(** [Initialize] unfolded at a call whose fill and whose [beta] are known. *)
Lemma Initialize_returned {G : Type}
    (randomInit : double -> double -> arma.mat -> N -> N -> G -> arma.mat * G)
    (norm : arma.mat -> double) (n_rows n_cols : N) (w : world G)
    (F : arma.mat) (g' : G) (b : double) :
  randomInit (lowerBound (this w)) (upperBound (this w))
             (W w) n_rows n_cols (gen w) = (F, g') ->
  beta n_rows n_cols = Returned b ->
  Initialize randomInit norm n_rows n_cols w =
  Returned (World (this w) (arma.inplace_mul F (ddiv b (norm F))) g').
Proof.
  intros HF Hb. unfold Initialize. rewrite HF, Hb. reflexivity.
Qed.

Lemma Initialize_zero_rows {G : Type}
    (randomInit : double -> double -> arma.mat -> N -> N -> G -> arma.mat * G)
    (norm : arma.mat -> double) (n_cols : N) (w : world G) :
  Initialize randomInit norm 0 n_cols w = Undefined.
Proof.
  unfold Initialize.
  destruct (randomInit _ _ _ _ _ _) as [F g']. reflexivity.
Qed.

(** The two ways a call can end: undefined, with zero rows, or returned,
    with the fill rescaled by [beta / norm]. *)
Lemma Initialize_cases {G : Type}
    (randomInit : double -> double -> arma.mat -> N -> N -> G -> arma.mat * G)
    (norm : arma.mat -> double) (n_rows n_cols : N) (w : world G) :
  (n_rows = 0%N /\ Initialize randomInit norm n_rows n_cols w = Undefined) \/
  (exists b F g',
     randomInit (lowerBound (this w)) (upperBound (this w))
                (W w) n_rows n_cols (gen w) = (F, g') /\
     beta n_rows n_cols = Returned b /\
     Initialize randomInit norm n_rows n_cols w =
     Returned (World (this w) (arma.inplace_mul F (ddiv b (norm F))) g')).
Proof.
  destruct (N.eq_dec n_rows 0) as [->|Hne].
  - left. split; [reflexivity | apply Initialize_zero_rows].
  - right.
    destruct (randomInit (lowerBound (this w)) (upperBound (this w))
                (W w) n_rows n_cols (gen w)) as [F g'] eqn:HF.
    destruct (beta_defined n_rows n_cols) as (b & Hb & _); [lia|].
    exists (Fin b), F, g'. split; [reflexivity|]. split; [exact Hb|].
    apply (Initialize_returned _ _ _ _ _ _ _ _ HF Hb).
Qed.

(** ** The Euclidean norm is absolutely homogeneous *)

Lemma dadd_not_finite_l (x y : double) : ~ is_finite x -> ~ is_finite (dadd x y).
Proof. destruct x, y; simpl; tauto. Qed.

Lemma sum_sq_not_finite (l : list double) :
  forall acc, ~ is_finite acc -> ~ is_finite (arma.sum_sq l acc).
Proof.
  induction l as [|x l IH]; intros acc Hacc; simpl.
  - exact Hacc.
  - apply IH. now apply dadd_not_finite_l.
Qed.

(** A finite sum of squares is scaled by [c * c] when every entry is
    multiplied by [c]; it is never negative when it starts so. *)
Lemma sum_sq_scale (c : R) (l : list double) :
  forall a s,
    arma.sum_sq l (Fin a) = Fin s ->
    arma.sum_sq (map (fun x => dmul x (Fin c)) l) (Fin (c * c * a))
    = Fin (c * c * s) /\ (0 <= a -> 0 <= s).
Proof.
  induction l as [|x l IH]; intros a s H.
  - simpl in *. apply Fin_inj in H. subst s. split; [reflexivity | tauto].
  - change (arma.sum_sq l (dadd (Fin a) (dmul x x)) = Fin s) in H.
    change (arma.sum_sq (map (fun y => dmul y (Fin c)) l)
              (dadd (Fin (c * c * a)) (dmul (dmul x (Fin c)) (dmul x (Fin c))))
            = Fin (c * c * s) /\ (0 <= a -> 0 <= s)).
    destruct (dmul x x) as [q| | |] eqn:Hxx.
    + destruct x as [r| | |]; try discriminate.
      cbn [dmul dadd] in *. apply Fin_inj in Hxx. subst q.
      destruct (IH _ _ H) as [IH1 IH2]. split.
      * rewrite <- IH1. do 2 f_equal. ring.
      * intros Ha. apply IH2. nra.
    + exfalso. apply (sum_sq_not_finite l (dadd (Fin a) PInf)).
      * simpl; tauto.
      * rewrite H. exact I.
    + exfalso. apply (sum_sq_not_finite l (dadd (Fin a) NInf)).
      * simpl; tauto.
      * rewrite H. exact I.
    + exfalso. apply (sum_sq_not_finite l (dadd (Fin a) NaN)).
      * simpl; tauto.
      * rewrite H. exact I.
Qed.

Lemma dsqrt_fin_inv (x : double) (n : R) :
  dsqrt x = Fin n -> exists s, x = Fin s /\ 0 <= s /\ n = sqrt s.
Proof.
  destruct x as [a| | |]; simpl; try discriminate.
  destruct (Rlt_dec a 0) as [Hlt|Hge]; [discriminate|].
  intros H. apply Fin_inj in H. exists a. repeat split; [lra | now symmetry].
Qed.

Lemma dsqrt_fin (s : R) : 0 <= s -> dsqrt (Fin s) = Fin (sqrt s).
Proof.
  intros Hs. simpl. destruct (Rlt_dec s 0); [lra | reflexivity].
Qed.

Lemma dsqrt_square (a s : R) : 0 <= a -> s = a * a -> dsqrt (Fin s) = Fin a.
Proof.
  intros Ha ->. rewrite dsqrt_fin by nra. now rewrite sqrt_square.
Qed.

Lemma frobenius_scale (M : arma.mat) (c n : R) :
  arma.frobenius M = Fin n ->
  arma.frobenius (arma.inplace_mul M (Fin c)) = Fin (Rabs c * n).
Proof.
  unfold arma.frobenius. intros H.
  apply dsqrt_fin_inv in H. destruct H as (s & Hs & Hpos & ->).
  destruct (sum_sq_scale c _ _ _ Hs) as [Hsc _].
  cbn [arma.inplace_mul arma.mem].
  replace (Fin 0) with (Fin (c * c * 0)) by (f_equal; ring).
  rewrite Hsc. rewrite dsqrt_fin by nra.
  f_equal. rewrite sqrt_mult by nra.
  f_equal. apply sqrt_Rsqr_abs.
Qed.

Lemma frobenius_nonneg (M : arma.mat) (n : R) :
  arma.frobenius M = Fin n -> 0 <= n.
Proof.
  unfold arma.frobenius. intros H.
  apply dsqrt_fin_inv in H. destruct H as (s & _ & _ & ->).
  apply sqrt_pos.
Qed.

(** ** The norm after the rescale *)

Section NormLaw.

Context {G : Type}.
Variable randomInit :
  double -> double -> arma.mat -> N -> N -> G -> arma.mat * G.
Variable norm : arma.mat -> double.

(** The two properties of a norm the rescale relies on. *)
Hypothesis norm_scale : forall (M : arma.mat) (c n : R),
  norm M = Fin n -> norm (arma.inplace_mul M (Fin c)) = Fin (Rabs c * n).
Hypothesis norm_nonneg : forall (M : arma.mat) (n : R),
  norm M = Fin n -> 0 <= n.

(** Whatever the fill, a call with a finite non-zero norm leaves a matrix
    whose norm is the [beta] the code computed. *)
Lemma Initialize_norm_is_beta (n_rows n_cols : N) (w : world G)
    (F : arma.mat) (g' : G) (b n : R) :
  randomInit (lowerBound (this w)) (upperBound (this w))
             (W w) n_rows n_cols (gen w) = (F, g') ->
  beta n_rows n_cols = Returned (Fin b) ->
  0 <= b ->
  norm F = Fin n ->
  n <> 0 ->
  exists w',
    Initialize randomInit norm n_rows n_cols w = Returned w' /\
    W w' = arma.inplace_mul F (Fin (b / n)) /\
    norm (W w') = Fin b.
Proof.
  intros HF Hb Hb0 Hn Hn0.
  assert (Hpos : 0 < n) by (specialize (norm_nonneg _ _ Hn); lra).
  eexists. split; [apply (Initialize_returned _ _ _ _ _ _ _ _ HF Hb)|].
  cbn [W]. rewrite Hn, (ddiv_fin _ _ Hn0). split; [reflexivity|].
  rewrite (norm_scale _ _ _ Hn). f_equal.
  rewrite Rabs_right.
  - field. exact Hn0.
  - apply Rle_ge. apply Rmult_le_pos; [exact Hb0|].
    left. now apply Rinv_0_lt_compat.
Qed.

End NormLaw.

(** ** The cube root of two, for the 3 x 2 scenario *)

Lemma Rpower_third_cube (a : R) : 0 < a -> Rpower (a * a * a) (1 / 3) = a.
Proof.
  intros Ha.
  replace (a * a * a) with (a ^ 3) by ring.
  rewrite <- (Rpower_pow 3 a Ha), Rpower_mult.
  replace (INR 3 * (1 / 3)) with 1 by (simpl; field).
  now apply Rpower_1.
Qed.

Lemma cube_root_2_bounds : 1.259921 < Rpower 2 (1 / 3) < 1.259922.
Proof.
  split.
  - rewrite <- (Rpower_third_cube 1.259921) at 1 by lra.
    apply Rlt_Rpower_l; lra.
  - rewrite <- (Rpower_third_cube 1.259922) at 1 by lra.
    apply Rlt_Rpower_l; lra.
Qed.

Lemma beta_real_3_2_bounds : 0.881944 < beta_real 3 2 < 0.881946.
Proof.
  unfold beta_real. simpl Z.of_N.
  pose proof cube_root_2_bounds as [Hl Hu]. lra.
Qed.

(** ** The constructor and the frame of a call *)

(** C7: the constructor accepts every pair of bounds, a lower bound above
    the upper bound included, stores the two values as given, and takes
    -0.5 and 0.5 for omitted arguments. *)
Theorem construct_stores_bounds :
  forall lo hi : double,
    lowerBound (construct (Some lo) (Some hi)) = lo /\
    upperBound (construct (Some lo) (Some hi)) = hi /\
    construct (Some lo) None = {| lowerBound := lo; upperBound := Fin 0.5 |} /\
    construct None None =
      {| lowerBound := Fin (-0.5); upperBound := Fin 0.5 |} /\
    construct (Some (Fin 1)) (Some (Fin 0)) =
      {| lowerBound := Fin 1; upperBound := Fin 0 |}.
Proof.
  intros lo hi. repeat split.
Qed.

(** C8: a call leaves the initialiser object, hence its two bounds, as it
    found them; what it writes is the matrix (and, through the filler, the
    random source).  The outcome depends on the object only through the two
    bounds, the only state the object has.  A call that does not return is
    one with zero rows. *)
Theorem Initialize_frame :
  forall (G : Type)
         (randomInit :
            double -> double -> arma.mat -> N -> N -> G -> arma.mat * G)
         (norm : arma.mat -> double) (n_rows n_cols : N) (w : world G),
    match Initialize randomInit norm n_rows n_cols w with
    | Returned w' =>
        this w' = this w /\
        lowerBound (this w') = lowerBound (this w) /\
        upperBound (this w') = upperBound (this w) /\
        gen w' = snd (randomInit (lowerBound (this w)) (upperBound (this w))
                                 (W w) n_rows n_cols (gen w))
    | Thrown _ => False
    | Undefined => n_rows = 0%N
    end /\
    Initialize randomInit norm n_rows n_cols w =
    Initialize randomInit norm n_rows n_cols
      (World {| lowerBound := lowerBound (this w);
                upperBound := upperBound (this w) |} (W w) (gen w)).
Proof.
  intros G randomInit norm n_rows n_cols w. split.
  - destruct (Initialize_cases randomInit norm n_rows n_cols w)
      as [[Hz ->]|(b & F & g' & HF & _ & ->)].
    + exact Hz.
    + cbn [this gen]. rewrite HF. auto.
  - destruct w as [[lo hi] W0 g]. reflexivity.
Qed.

(** ** The scale factor *)

(** C9: with two or more rows the quotient [1 / n_rows], taken on unsigned
    integers, is 0, the power is 1, and the scale factor is exactly 0.7
    whatever the number of columns; every such call rescales by
    [0.7 / norm]. *)
Theorem beta_integer_exponent :
  forall n_rows n_cols : N,
    (2 <= n_rows)%N ->
    size_t_div 1 n_rows = Returned 0%N /\
    pow (of_size_t n_cols) 0 = Fin 1 /\
    beta n_rows n_cols = Returned (Fin 0.7) /\
    forall (G : Type)
           (randomInit :
              double -> double -> arma.mat -> N -> N -> G -> arma.mat * G)
           (norm : arma.mat -> double) (w : world G),
      Initialize randomInit norm n_rows n_cols w =
      (let (F, g') := randomInit (lowerBound (this w)) (upperBound (this w))
                                 (W w) n_rows n_cols (gen w) in
       Returned (World (this w)
                       (arma.inplace_mul F (ddiv (Fin 0.7) (norm F))) g')).
Proof.
  intros n_rows n_cols H.
  split; [now apply size_t_div_one_ge2|].
  split; [apply pow_0|].
  split; [now apply beta_ge2_rows|].
  intros G randomInit norm w. unfold Initialize.
  destruct (randomInit _ _ _ _ _ _) as [F g'].
  rewrite (beta_ge2_rows _ n_cols H). reflexivity.
Qed.

Lemma beta_integer_exponent_witness :
  (2 <= 2)%N /\ beta 2 5 = Returned (Fin 0.7).
Proof.
  split.
  - lia.
  - apply (beta_integer_exponent 2 5). lia.
Defined.

(** C1: at [n_rows = 3], [n_cols = 2] the code computes the scale factor
    0.7, while the formula with a real exponent, [0.7 * 2^(1/3)], lies
    between 0.881944 and 0.881946. *)
Theorem beta_3_2_is_0_7 :
  beta 3 2 = Returned (Fin 0.7) /\
  0.881944 < beta_real 3 2 < 0.881946 /\
  beta 3 2 <> Returned (Fin (beta_real 3 2)).
Proof.
  pose proof beta_real_3_2_bounds as Hb.
  assert (H : beta 3 2 = Returned (Fin 0.7)) by (apply beta_ge2_rows; lia).
  repeat split; try tauto.
  rewrite H. intros E. apply Returned_inj, Fin_inj in E. lra.
Qed.

(** ** Shape *)

(** C5: when the filler leaves a matrix of the requested shape, a call
    with positive dimensions returns and the matrix it leaves has exactly
    [n_rows] rows, [n_cols] columns and [n_rows * n_cols] entries. *)
Theorem Initialize_shape :
  forall (G : Type)
         (randomInit :
            double -> double -> arma.mat -> N -> N -> G -> arma.mat * G)
         (norm : arma.mat -> double) (n_rows n_cols : N) (w : world G)
         (F : arma.mat) (g' : G),
    (0 < n_rows)%N ->
    (0 < n_cols)%N ->
    randomInit (lowerBound (this w)) (upperBound (this w))
               (W w) n_rows n_cols (gen w) = (F, g') ->
    arma.n_rows F = n_rows ->
    arma.n_cols F = n_cols ->
    length (arma.mem F) = N.to_nat (n_rows * n_cols) ->
    exists w',
      Initialize randomInit norm n_rows n_cols w = Returned w' /\
      arma.n_rows (W w') = n_rows /\
      arma.n_cols (W w') = n_cols /\
      length (arma.mem (W w')) = N.to_nat (n_rows * n_cols).
Proof.
  intros G randomInit norm n_rows n_cols w F g' Hr Hc HF Hrows Hcols Hlen.
  destruct (beta_defined n_rows n_cols Hr) as (b & Hb & _).
  eexists. split; [apply (Initialize_returned _ _ _ _ _ _ _ _ HF Hb)|].
  cbn [W arma.inplace_mul arma.n_rows arma.n_cols arma.mem].
  rewrite length_map. auto.
Qed.

Lemma Initialize_shape_witness :
  (0 < 3)%N /\ (0 < 2)%N /\
  exists w',
    Initialize stub_randomInit arma.frobenius 3 2
      (World (construct None None) empty_mat draws_3_2) = Returned w' /\
    arma.n_rows (W w') = 3%N /\
    arma.n_cols (W w') = 2%N /\
    length (arma.mem (W w')) = N.to_nat (3 * 2).
Proof.
  split; [lia|]. split; [lia|].
  apply (Initialize_shape (list double) stub_randomInit arma.frobenius 3 2
           (World (construct None None) empty_mat draws_3_2)
           (arma.Mat 3 2 draws_3_2) []).
  - lia.
  - lia.
  - reflexivity.
  - reflexivity.
  - reflexivity.
  - reflexivity.
Defined.

(** ** Degenerate calls *)

(** C4, as the code behaves by design: no dimension is checked and no
    failure is reported.  A request with a positive number of rows for a
    matrix without elements (zero columns) is not rejected: when the filler
    returns its matrix without entries, [beta] is computed and the call
    returns normally with that matrix. *)
Theorem Initialize_no_dimension_check :
  forall (G : Type)
         (randomInit :
            double -> double -> arma.mat -> N -> N -> G -> arma.mat * G)
         (norm : arma.mat -> double) (n_rows : N) (w : world G)
         (F : arma.mat) (g' : G),
    (0 < n_rows)%N ->
    randomInit (lowerBound (this w)) (upperBound (this w))
               (W w) n_rows 0%N (gen w) = (F, g') ->
    length (arma.mem F) = N.to_nat (n_rows * 0) ->
    (exists b, beta n_rows 0 = Returned b) /\
    Initialize randomInit norm n_rows 0 w = Returned (World (this w) F g').
Proof.
  intros G randomInit norm n_rows w F g' Hr HF Hlen.
  destruct (beta_defined n_rows 0 Hr) as (b & Hb & _).
  split; [now exists (Fin b)|].
  rewrite (Initialize_returned _ _ _ _ _ _ _ _ HF Hb).
  do 2 f_equal. destruct F as [r c m]. cbn [arma.mem] in Hlen.
  rewrite N.mul_0_r in Hlen. destruct m; [reflexivity | discriminate].
Qed.

Lemma Initialize_no_dimension_check_witness :
  (0 < 1)%N /\
  stub_randomInit (Fin (-0.5)) (Fin 0.5) empty_mat 1 0 []
  = (arma.Mat 1 0 [], []) /\
  length (arma.mem (arma.Mat 1 0 [])) = N.to_nat (1 * 0) /\
  (exists b, beta 1 0 = Returned b) /\
  Initialize stub_randomInit arma.frobenius 1 0
    (World (construct None None) empty_mat [])
  = Returned (World (construct None None) (arma.Mat 1 0 []) []).
Proof.
  split; [lia|]. split; [reflexivity|]. split; [reflexivity|].
  apply (Initialize_no_dimension_check (list double) stub_randomInit
           arma.frobenius 1
           (World (construct None None) empty_mat [])
           (arma.Mat 1 0 []) []).
  - lia.
  - reflexivity.
  - reflexivity.
Defined.

(** C4 fails: a call with zero rows is not rejected, the division by zero
    is reached; a call for a matrix without entries returns normally. *)
Lemma zero_rows_not_rejected :
  Initialize stub_randomInit arma.frobenius 0 1
    (World (construct None None) empty_mat []) = Undefined /\
  Initialize stub_randomInit arma.frobenius 0 1
    (World (construct None None) empty_mat []) <> Thrown InvalidDimension /\
  Initialize stub_randomInit arma.frobenius 1 0
    (World (construct None None) empty_mat []) =
    Returned (World (construct None None) (arma.Mat 1 0 []) []).
Proof.
  split; [reflexivity|]. split; [discriminate|].
  reflexivity.
Qed.

Lemma Forall_not_finite_scaled (l : list double) (s : double) :
  s = PInf \/ s = NaN ->
  Forall (fun x => ~ is_finite x) (map (fun x => dmul x s) l).
Proof.
  intros Hs. apply Forall_forall. intros y Hy.
  apply in_map_iff in Hy. destruct Hy as (x & <- & _).
  destruct Hs as [->| ->].
  - apply dmul_PInf_not_finite.
  - rewrite dmul_NaN_r. simpl. tauto.
Qed.

(** C3, as the code behaves: the norm is not inspected.  When it is zero
    (and the number of rows is positive), [beta / norm] is evaluated all
    the same and is [+Inf], or [NaN] when [beta] is zero; the call returns
    normally, and every entry of the matrix it leaves is non-finite. *)
Theorem Initialize_zero_norm_unchecked :
  forall (G : Type)
         (randomInit :
            double -> double -> arma.mat -> N -> N -> G -> arma.mat * G)
         (norm : arma.mat -> double) (n_rows n_cols : N) (w : world G)
         (F : arma.mat) (g' : G),
    (0 < n_rows)%N ->
    randomInit (lowerBound (this w)) (upperBound (this w))
               (W w) n_rows n_cols (gen w) = (F, g') ->
    norm F = Fin 0 ->
    exists (b : R) (s : double) (w' : world G),
      beta n_rows n_cols = Returned (Fin b) /\
      s = ddiv (Fin b) (norm F) /\
      (s = PInf \/ s = NaN) /\
      Initialize randomInit norm n_rows n_cols w = Returned w' /\
      W w' = arma.inplace_mul F s /\
      Forall (fun x => ~ is_finite x) (arma.mem (W w')).
Proof.
  intros G randomInit norm n_rows n_cols w F g' Hr HF Hn.
  destruct (beta_defined n_rows n_cols Hr) as (b & Hb & Hb0).
  assert (Hs : ddiv (Fin b) (norm F) = PInf \/ ddiv (Fin b) (norm F) = NaN).
  { rewrite Hn, ddiv_zero. destruct Hb0 as [Hpos|<-].
    - left. now apply signed_inf_pos.
    - right. apply signed_inf_zero. }
  exists b, (ddiv (Fin b) (norm F)). eexists.
  split; [exact Hb|]. split; [reflexivity|]. split; [exact Hs|].
  split; [apply (Initialize_returned _ _ _ _ _ _ _ _ HF Hb)|].
  split; [reflexivity|].
  cbn [W arma.inplace_mul arma.mem].
  now apply Forall_not_finite_scaled.
Qed.

Lemma frobenius_zero_1_1 : arma.frobenius (arma.Mat 1 1 [Fin 0]) = Fin 0.
Proof.
  unfold arma.frobenius. cbn [arma.mem arma.sum_sq fold_left dmul dadd].
  apply dsqrt_square; lra.
Qed.

Lemma Initialize_zero_norm_unchecked_witness :
  (0 < 1)%N /\
  arma.frobenius (arma.Mat 1 1 [Fin 0]) = Fin 0 /\
  exists (b : R) (s : double) (w' : world (list double)),
    beta 1 1 = Returned (Fin b) /\
    s = ddiv (Fin b) (arma.frobenius (arma.Mat 1 1 [Fin 0])) /\
    (s = PInf \/ s = NaN) /\
    Initialize stub_randomInit arma.frobenius 1 1
      (World (construct (Some (Fin 0)) (Some (Fin 0))) empty_mat [])
    = Returned w' /\
    W w' = arma.inplace_mul (arma.Mat 1 1 [Fin 0]) s /\
    Forall (fun x => ~ is_finite x) (arma.mem (W w')).
Proof.
  split; [lia|]. split; [exact frobenius_zero_1_1|].
  apply (Initialize_zero_norm_unchecked (list double) stub_randomInit
           arma.frobenius 1 1
           (World (construct (Some (Fin 0)) (Some (Fin 0))) empty_mat [])
           (arma.Mat 1 1 [Fin 0]) []).
  - lia.
  - reflexivity.
  - exact frobenius_zero_1_1.
Defined.

(** C3 fails: with both bounds 0 the fill of a 1 x 1 matrix is the zero
    matrix, its norm is zero, and the call returns the matrix whose only
    entry is NaN instead of ending in a [DegenerateNorm] failure. *)
Lemma zero_norm_not_reported :
  arma.frobenius
    (fst (stub_randomInit (Fin 0) (Fin 0) empty_mat 1 1 [])) = Fin 0 /\
  Initialize stub_randomInit arma.frobenius 1 1
    (World (construct (Some (Fin 0)) (Some (Fin 0))) empty_mat [])
  = Returned (World (construct (Some (Fin 0)) (Some (Fin 0)))
                    (arma.Mat 1 1 [NaN]) []) /\
  Initialize stub_randomInit arma.frobenius 1 1
    (World (construct (Some (Fin 0)) (Some (Fin 0))) empty_mat [])
  <> Thrown DegenerateNorm.
Proof.
  assert (E : Initialize stub_randomInit arma.frobenius 1 1
                (World (construct (Some (Fin 0)) (Some (Fin 0))) empty_mat [])
              = Returned (World (construct (Some (Fin 0)) (Some (Fin 0)))
                                (arma.Mat 1 1 [NaN]) [])).
  { rewrite (Initialize_returned stub_randomInit arma.frobenius 1 1
               (World (construct (Some (Fin 0)) (Some (Fin 0))) empty_mat [])
               (arma.Mat 1 1 [Fin 0]) [] _ eq_refl (beta_one_row 1)).
    rewrite frobenius_zero_1_1, ddiv_zero.
    rewrite signed_inf_pos by (simpl; lra).
    unfold arma.inplace_mul. cbn [arma.n_rows arma.n_cols arma.mem map dmul this].
    now rewrite signed_inf_zero. }
  split; [exact frobenius_zero_1_1|]. split; [exact E|].
  rewrite E. discriminate.
Qed.

(** ** The norm of the result in the two scenarios *)

Lemma beta_1_5 : beta 1 5 = Returned (Fin 3.5).
Proof.
  rewrite beta_one_row. do 2 f_equal. simpl. lra.
Qed.

Lemma frobenius_draws_3_2 : arma.frobenius (arma.Mat 3 2 draws_3_2) = Fin 1.
Proof.
  unfold arma.frobenius, draws_3_2.
  cbn [arma.mem arma.sum_sq fold_left dmul dadd].
  apply dsqrt_square; lra.
Qed.

Lemma frobenius_draws_1_5 : arma.frobenius (arma.Mat 1 5 draws_1_5) = Fin 2.
Proof.
  unfold arma.frobenius, draws_1_5.
  cbn [arma.mem arma.sum_sq fold_left dmul dadd].
  apply dsqrt_square; lra.
Qed.

(** C6: with bounds -1 and 1, one row and five columns, the scale factor is
    0.7 * 5 = 3.5, and for every fill with a finite non-zero norm the call
    returns a matrix of norm 3.5.  The norm is any function that is
    absolutely homogeneous and never negative. *)
Theorem Initialize_1_5_norm :
  forall (G : Type)
         (randomInit :
            double -> double -> arma.mat -> N -> N -> G -> arma.mat * G)
         (norm : arma.mat -> double)
         (W0 : arma.mat) (g : G) (F : arma.mat) (g' : G) (n : R),
    (forall (M : arma.mat) (c m : R),
        norm M = Fin m ->
        norm (arma.inplace_mul M (Fin c)) = Fin (Rabs c * m)) ->
    (forall (M : arma.mat) (m : R), norm M = Fin m -> 0 <= m) ->
    randomInit (Fin (-1)) (Fin 1) W0 1%N 5%N g = (F, g') ->
    norm F = Fin n ->
    n <> 0 ->
    beta 1 5 = Returned (Fin 3.5) /\
    exists w',
      Initialize randomInit norm 1 5
        (World (construct (Some (Fin (-1))) (Some (Fin 1))) W0 g)
      = Returned w' /\
      W w' = arma.inplace_mul F (Fin (3.5 / n)) /\
      norm (W w') = Fin 3.5.
Proof.
  intros G randomInit norm W0 g F g' n Hscale Hnonneg HF Hn Hn0.
  split; [exact beta_1_5|].
  apply (Initialize_norm_is_beta randomInit norm Hscale Hnonneg 1 5
           (World (construct (Some (Fin (-1))) (Some (Fin 1))) W0 g)
           F g' 3.5 n); auto.
  - exact beta_1_5.
  - lra.
Qed.

Lemma Initialize_1_5_norm_witness :
  stub_randomInit (Fin (-1)) (Fin 1) empty_mat 1 5 draws_1_5
  = (arma.Mat 1 5 draws_1_5, []) /\
  arma.frobenius (arma.Mat 1 5 draws_1_5) = Fin 2 /\
  2 <> 0 /\
  beta 1 5 = Returned (Fin 3.5) /\
  exists w',
    Initialize stub_randomInit arma.frobenius 1 5
      (World (construct (Some (Fin (-1))) (Some (Fin 1))) empty_mat draws_1_5)
    = Returned w' /\
    W w' = arma.inplace_mul (arma.Mat 1 5 draws_1_5) (Fin (3.5 / 2)) /\
    arma.frobenius (W w') = Fin 3.5.
Proof.
  split; [reflexivity|].
  split; [exact frobenius_draws_1_5|].
  split; [lra|].
  apply (Initialize_1_5_norm (list double) stub_randomInit arma.frobenius
           empty_mat draws_1_5 (arma.Mat 1 5 draws_1_5) [] 2).
  - exact frobenius_scale.
  - exact frobenius_nonneg.
  - reflexivity.
  - exact frobenius_draws_1_5.
  - lra.
Defined.

(** C2: at [n_rows = 3], [n_cols = 2], default bounds, a fill of norm 1 is
    rescaled to a matrix of norm 0.7, which is below [0.7 * 2^(1/3)] by more
    than 0.18. *)
Theorem Initialize_3_2_norm_is_0_7 :
  stub_randomInit (Fin (-0.5)) (Fin 0.5) empty_mat 3 2 draws_3_2
  = (arma.Mat 3 2 draws_3_2, []) /\
  arma.frobenius (arma.Mat 3 2 draws_3_2) = Fin 1 /\
  (exists w',
     Initialize stub_randomInit arma.frobenius 3 2
       (World (construct None None) empty_mat draws_3_2) = Returned w' /\
     W w' = arma.inplace_mul (arma.Mat 3 2 draws_3_2) (Fin (0.7 / 1)) /\
     arma.frobenius (W w') = Fin 0.7) /\
  0.18 < beta_real 3 2 - 0.7.
Proof.
  split; [reflexivity|].
  split; [exact frobenius_draws_3_2|].
  split.
  - apply (Initialize_norm_is_beta stub_randomInit arma.frobenius
             frobenius_scale frobenius_nonneg 3 2
             (World (construct None None) empty_mat draws_3_2)
             (arma.Mat 3 2 draws_3_2) [] 0.7 1).
    + reflexivity.
    + apply beta_ge2_rows. lia.
    + lra.
    + exact frobenius_draws_3_2.
    + lra.
  - pose proof beta_real_3_2_bounds. lra.
Qed.

(** ** The rescale is one scalar multiplication *)

Lemma signed_inf_negative (k : R) : is_negative (signed_inf k) -> k < 0.
Proof.
  unfold signed_inf.
  destruct (Rlt_dec 0 k); [simpl; tauto|].
  destruct (Rlt_dec k 0); simpl; tauto.
Qed.

Lemma signed_inf_positive (k : R) : is_positive (signed_inf k) -> 0 < k.
Proof.
  unfold signed_inf.
  destruct (Rlt_dec 0 k); [simpl; tauto|].
  destruct (Rlt_dec k 0); simpl; tauto.
Qed.

(** Multiplication by a scalar that is not negative never turns a positive
    value into a negative one, nor a negative value into a positive one. *)
Lemma dmul_sign_not_reversed (x s : double) :
  ~ is_negative s ->
  (is_positive x -> ~ is_negative (dmul x s)) /\
  (is_negative x -> ~ is_positive (dmul x s)).
Proof.
  intros Hs.
  destruct x as [a| | |], s as [k| | |]; cbn [dmul is_positive is_negative] in *;
    split; intros Hx H;
    try tauto;
    try (apply signed_inf_negative in H);
    try (apply signed_inf_positive in H);
    nra.
Qed.

(** C10, as the code behaves: the matrix a call leaves is the filled matrix
    with every entry multiplied by the one scalar [beta / norm].  When
    [beta] and the norm are positive (the norm finite or [+Inf]) that
    scalar is not negative and not a NaN, and no entry changes to the
    opposite sign: a positive entry is never negative afterwards, a
    negative entry never positive. *)
Theorem Initialize_same_scalar_signs :
  forall (G : Type)
         (randomInit :
            double -> double -> arma.mat -> N -> N -> G -> arma.mat * G)
         (norm : arma.mat -> double) (n_rows n_cols : N) (w : world G)
         (F : arma.mat) (g' : G) (b : R),
    randomInit (lowerBound (this w)) (upperBound (this w))
               (W w) n_rows n_cols (gen w) = (F, g') ->
    beta n_rows n_cols = Returned (Fin b) ->
    0 < b ->
    is_positive (norm F) ->
    exists (s : double) (w' : world G),
      s = ddiv (Fin b) (norm F) /\
      ~ is_negative s /\ s <> NaN /\
      Initialize randomInit norm n_rows n_cols w = Returned w' /\
      W w' = arma.inplace_mul F s /\
      forall (i : nat) (x : double),
        nth_error (arma.mem F) i = Some x ->
        nth_error (arma.mem (W w')) i = Some (dmul x s) /\
        (is_positive x -> ~ is_negative (dmul x s)) /\
        (is_negative x -> ~ is_positive (dmul x s)).
Proof.
  intros G randomInit norm n_rows n_cols w F g' b HF Hb Hb0 Hn.
  assert (Hs : ~ is_negative (ddiv (Fin b) (norm F)) /\
               ddiv (Fin b) (norm F) <> NaN).
  { destruct (norm F) as [n| | |]; cbn [is_positive] in Hn; try tauto.
    - rewrite ddiv_fin by lra. split; [|discriminate].
      cbn [is_negative]. pose proof (Rdiv_lt_0_compat b n Hb0 Hn). lra.
    - cbn [ddiv is_negative]. split; [lra | discriminate]. }
  destruct Hs as [Hneg Hnan].
  exists (ddiv (Fin b) (norm F)). eexists.
  split; [reflexivity|]. split; [exact Hneg|]. split; [exact Hnan|].
  split; [apply (Initialize_returned _ _ _ _ _ _ _ _ HF Hb)|].
  cbn [W]. split; [reflexivity|].
  intros i x Hx. cbn [arma.inplace_mul arma.mem].
  split.
  - rewrite nth_error_map, Hx. reflexivity.
  - now apply dmul_sign_not_reversed.
Qed.

Lemma Initialize_same_scalar_signs_witness :
  stub_randomInit (Fin (-1)) (Fin 1) empty_mat 1 5 draws_1_5
  = (arma.Mat 1 5 draws_1_5, []) /\
  beta 1 5 = Returned (Fin 3.5) /\
  0 < 3.5 /\
  is_positive (arma.frobenius (arma.Mat 1 5 draws_1_5)) /\
  exists (s : double) (w' : world (list double)),
    s = ddiv (Fin 3.5) (arma.frobenius (arma.Mat 1 5 draws_1_5)) /\
    ~ is_negative s /\ s <> NaN /\
    Initialize stub_randomInit arma.frobenius 1 5
      (World (construct (Some (Fin (-1))) (Some (Fin 1))) empty_mat draws_1_5)
    = Returned w' /\
    W w' = arma.inplace_mul (arma.Mat 1 5 draws_1_5) s.
Proof.
  assert (Hpos : is_positive (arma.frobenius (arma.Mat 1 5 draws_1_5)))
    by (rewrite frobenius_draws_1_5; simpl; lra).
  split; [reflexivity|].
  split; [exact beta_1_5|].
  split; [lra|].
  split; [exact Hpos|].
  destruct (Initialize_same_scalar_signs (list double) stub_randomInit
              arma.frobenius 1 5
              (World (construct (Some (Fin (-1))) (Some (Fin 1)))
                     empty_mat draws_1_5)
              (arma.Mat 1 5 draws_1_5) [] 3.5
              eq_refl beta_1_5 ltac:(lra) Hpos)
    as (s & w' & Hs & Hneg & Hnan & Hrun & Hmul & _).
  exists s, w'. repeat split; assumption.
Defined.

(** C10 fails: with bounds 1 and [+Inf], one row and two columns, the fill
    [+Inf, 1] has the positive norm [+Inf] and [beta] is 1.4, yet the call
    leaves [NaN, 0], which is the fill multiplied by no positive scalar;
    the positive entry 1 has become 0. *)
Lemma infinite_norm_not_positive_multiple :
  beta 1 2 = Returned (Fin 1.4) /\
  stub_randomInit (Fin 1) PInf empty_mat 1 2 [PInf; Fin 1]
  = (arma.Mat 1 2 [PInf; Fin 1], []) /\
  arma.frobenius (arma.Mat 1 2 [PInf; Fin 1]) = PInf /\
  Initialize stub_randomInit arma.frobenius 1 2
    (World (construct (Some (Fin 1)) (Some PInf)) empty_mat [PInf; Fin 1])
  = Returned (World (construct (Some (Fin 1)) (Some PInf))
                    (arma.Mat 1 2 [NaN; Fin 0]) []) /\
  ~ (exists s : double,
        is_positive s /\
        arma.Mat 1 2 [NaN; Fin 0]
        = arma.inplace_mul (arma.Mat 1 2 [PInf; Fin 1]) s).
Proof.
  assert (Hb : beta 1 2 = Returned (Fin 1.4)).
  { rewrite beta_one_row. do 2 f_equal. simpl. lra. }
  split; [exact Hb|]. split; [reflexivity|]. split; [reflexivity|].
  split.
  - rewrite (Initialize_returned stub_randomInit arma.frobenius 1 2
               (World (construct (Some (Fin 1)) (Some PInf))
                      empty_mat [PInf; Fin 1])
               (arma.Mat 1 2 [PInf; Fin 1]) [] _ eq_refl Hb).
    unfold arma.inplace_mul.
    cbn [arma.frobenius arma.sum_sq arma.mem arma.n_rows arma.n_cols
         fold_left dmul dadd dsqrt ddiv map this].
    rewrite signed_inf_zero.
    replace (1 * 0) with 0 by ring. reflexivity.
  - intros (s & Hs & E). injection E as E1 _.
    destruct s as [k| | |]; cbn [is_positive dmul] in *; try discriminate;
      try contradiction.
    rewrite (signed_inf_pos k Hs) in E1. discriminate.
Qed.

(** * Further properties of [Initialize] *)

(** ** Where the integer quotient agrees with the real exponent *)

Lemma Rpower_gt_1 (x y : R) : 1 < x -> 0 < y -> 1 < Rpower x y.
Proof.
  intros Hx Hy. unfold Rpower. rewrite <- exp_0.
  apply exp_increasing. apply Rmult_lt_0_compat; [exact Hy|].
  rewrite <- ln_1. apply ln_increasing; lra.
Qed.

Lemma Rpower_base_1 (y : R) : Rpower 1 y = 1.
Proof.
  unfold Rpower. rewrite ln_1, Rmult_0_r. apply exp_0.
Qed.

Lemma IZR_of_N_pos (n : N) : (0 < n)%N -> 0 < IZR (Z.of_N n).
Proof. intros H. apply IZR_lt. lia. Qed.

Lemma IZR_of_N_ge2 (n : N) : (2 <= n)%N -> 1 < IZR (Z.of_N n).
Proof. intros H. apply IZR_lt. lia. Qed.

(** X1: for positive dimensions the scale factor of the code is the value
    of the documented formula [0.7 * n_cols^(1/n_rows)] exactly when there
    is one row or one column. *)
Theorem beta_agrees_iff :
  forall n_rows n_cols : N,
    (0 < n_rows)%N ->
    (0 < n_cols)%N ->
    (beta n_rows n_cols = Returned (Fin (beta_real n_rows n_cols)) <->
     n_rows = 1%N \/ n_cols = 1%N).
Proof.
  intros n_rows n_cols Hr Hc. unfold beta_real.
  destruct (N.eq_dec n_rows 1) as [->|Hr1].
  - split; [auto|]. intros _. rewrite beta_one_row. do 2 f_equal.
    f_equal. simpl Z.of_N. replace (1 / 1) with 1 by field.
    symmetry. apply Rpower_1. now apply IZR_of_N_pos.
  - assert (Hr2 : (2 <= n_rows)%N) by lia.
    rewrite (beta_ge2_rows _ _ Hr2).
    assert (He : 0 < 1 / IZR (Z.of_N n_rows)).
    { apply Rdiv_lt_0_compat; [lra|]. now apply IZR_of_N_pos. }
    split.
    + intros E. apply Returned_inj, Fin_inj in E. right.
      destruct (N.eq_dec n_cols 1) as [Hc1|Hc1]; [exact Hc1|]. exfalso.
      assert (Hc2 : (2 <= n_cols)%N) by lia.
      pose proof (Rpower_gt_1 _ _ (IZR_of_N_ge2 _ Hc2) He). lra.
    + intros [E| ->]; [contradiction|].
      simpl Z.of_N. rewrite Rpower_base_1. do 2 f_equal. ring.
Qed.

Lemma beta_agrees_iff_witness :
  (0 < 1)%N /\ (0 < 5)%N /\
  (beta 1 5 = Returned (Fin (beta_real 1 5)) <-> 1%N = 1%N \/ 5%N = 1%N).
Proof.
  split; [lia|]. split; [lia|].
  apply (beta_agrees_iff 1 5); lia.
Defined.

(** ** Finite and non-finite fills *)

(** X5: a fill whose norm is NaN is turned into a matrix all of whose
    entries are NaN; the call still returns normally. *)
Theorem Initialize_nan_norm :
  forall (G : Type)
         (randomInit :
            double -> double -> arma.mat -> N -> N -> G -> arma.mat * G)
         (norm : arma.mat -> double) (n_rows n_cols : N) (w : world G)
         (F : arma.mat) (g' : G),
    (0 < n_rows)%N ->
    randomInit (lowerBound (this w)) (upperBound (this w))
               (W w) n_rows n_cols (gen w) = (F, g') ->
    norm F = NaN ->
    exists w',
      Initialize randomInit norm n_rows n_cols w = Returned w' /\
      length (arma.mem (W w')) = length (arma.mem F) /\
      Forall (fun x => x = NaN) (arma.mem (W w')).
Proof.
  intros G randomInit norm n_rows n_cols w F g' Hr HF Hn.
  destruct (beta_defined n_rows n_cols Hr) as (b & Hb & _).
  eexists. split; [apply (Initialize_returned _ _ _ _ _ _ _ _ HF Hb)|].
  cbn [W arma.inplace_mul arma.mem]. rewrite Hn. cbn [ddiv].
  split; [apply length_map|].
  apply Forall_forall. intros y Hy.
  apply in_map_iff in Hy. destruct Hy as (x & <- & _).
  apply dmul_NaN_r.
Qed.

Lemma Initialize_nan_norm_witness :
  (0 < 1)%N /\
  arma.frobenius (arma.Mat 1 2 [Fin 1; NaN]) = NaN /\
  exists w',
    Initialize stub_randomInit arma.frobenius 1 2
      (World (construct None None) empty_mat [Fin 1; NaN]) = Returned w' /\
    length (arma.mem (W w')) = 2%nat /\
    Forall (fun x => x = NaN) (arma.mem (W w')).
Proof.
  split; [lia|]. split; [reflexivity|].
  apply (Initialize_nan_norm (list double) stub_randomInit arma.frobenius 1 2
           (World (construct None None) empty_mat [Fin 1; NaN])
           (arma.Mat 1 2 [Fin 1; NaN]) []).
  - lia.
  - reflexivity.
  - reflexivity.
Defined.

(** X6: a fill whose norm is [+Inf] is wiped out: the scalar [beta / norm]
    is 0, every finite entry becomes 0 and every other entry becomes NaN. *)
Theorem Initialize_infinite_norm :
  forall (G : Type)
         (randomInit :
            double -> double -> arma.mat -> N -> N -> G -> arma.mat * G)
         (norm : arma.mat -> double) (n_rows n_cols : N) (w : world G)
         (F : arma.mat) (g' : G),
    (0 < n_rows)%N ->
    randomInit (lowerBound (this w)) (upperBound (this w))
               (W w) n_rows n_cols (gen w) = (F, g') ->
    norm F = PInf ->
    exists w',
      Initialize randomInit norm n_rows n_cols w = Returned w' /\
      W w' = arma.inplace_mul F (Fin 0) /\
      forall (i : nat) (x : double),
        nth_error (arma.mem F) i = Some x ->
        nth_error (arma.mem (W w')) i =
        Some (match x with Fin _ => Fin 0 | _ => NaN end).
Proof.
  intros G randomInit norm n_rows n_cols w F g' Hr HF Hn.
  destruct (beta_defined n_rows n_cols Hr) as (b & Hb & _).
  eexists. split; [apply (Initialize_returned _ _ _ _ _ _ _ _ HF Hb)|].
  cbn [W]. rewrite Hn. cbn [ddiv]. split; [reflexivity|].
  intros i x Hx. cbn [arma.inplace_mul arma.mem].
  rewrite nth_error_map, Hx. cbn [option_map]. f_equal.
  destruct x as [a| | |]; cbn [dmul].
  - f_equal. ring.
  - apply signed_inf_zero.
  - replace (- 0) with 0 by ring. apply signed_inf_zero.
  - reflexivity.
Qed.

Lemma Initialize_infinite_norm_witness :
  (0 < 1)%N /\
  arma.frobenius (arma.Mat 1 2 [PInf; Fin 1]) = PInf /\
  exists w',
    Initialize stub_randomInit arma.frobenius 1 2
      (World (construct None None) empty_mat [PInf; Fin 1]) = Returned w' /\
    W w' = arma.inplace_mul (arma.Mat 1 2 [PInf; Fin 1]) (Fin 0).
Proof.
  split; [lia|]. split; [reflexivity|].
  destruct (Initialize_infinite_norm (list double) stub_randomInit
              arma.frobenius 1 2
              (World (construct None None) empty_mat [PInf; Fin 1])
              (arma.Mat 1 2 [PInf; Fin 1]) []
              ltac:(lia) eq_refl eq_refl) as (w' & Hrun & HW & _).
  exists w'. split; assumption.
Defined.

(** X7: a call for a matrix without entries (whatever [beta / norm] is
    there, a NaN included) returns the filled matrix as it is. *)
Theorem Initialize_no_entries :
  forall (G : Type)
         (randomInit :
            double -> double -> arma.mat -> N -> N -> G -> arma.mat * G)
         (norm : arma.mat -> double) (n_rows n_cols : N) (w : world G)
         (F : arma.mat) (g' : G),
    (0 < n_rows)%N ->
    randomInit (lowerBound (this w)) (upperBound (this w))
               (W w) n_rows n_cols (gen w) = (F, g') ->
    arma.mem F = [] ->
    Initialize randomInit norm n_rows n_cols w
    = Returned (World (this w) F g').
Proof.
  intros G randomInit norm n_rows n_cols w F g' Hr HF Hmem.
  destruct (beta_defined n_rows n_cols Hr) as (b & Hb & _).
  rewrite (Initialize_returned _ _ _ _ _ _ _ _ HF Hb).
  do 2 f_equal. destruct F as [r c m]. cbn in Hmem. subst m. reflexivity.
Qed.

Lemma Initialize_no_entries_witness :
  (0 < 4)%N /\
  Initialize stub_randomInit arma.frobenius 4 0
    (World (construct None None) empty_mat [Fin 0.25])
  = Returned (World (construct None None) (arma.Mat 4 0 []) [Fin 0.25]).
Proof.
  split; [lia|].
  apply (Initialize_no_entries (list double) stub_randomInit arma.frobenius
           4 0 (World (construct None None) empty_mat [Fin 0.25])
           (arma.Mat 4 0 []) [Fin 0.25]).
  - lia.
  - reflexivity.
  - reflexivity.
Defined.

(** X10: a non-finite entry of the fill is non-finite in the matrix a call
    leaves, whatever the norm and the scale factor are. *)
Theorem Initialize_non_finite_persists :
  forall (G : Type)
         (randomInit :
            double -> double -> arma.mat -> N -> N -> G -> arma.mat * G)
         (norm : arma.mat -> double) (n_rows n_cols : N) (w : world G)
         (F : arma.mat) (g' : G) (i : nat) (x : double),
    (0 < n_rows)%N ->
    randomInit (lowerBound (this w)) (upperBound (this w))
               (W w) n_rows n_cols (gen w) = (F, g') ->
    nth_error (arma.mem F) i = Some x ->
    ~ is_finite x ->
    exists (w' : world G) (y : double),
      Initialize randomInit norm n_rows n_cols w = Returned w' /\
      nth_error (arma.mem (W w')) i = Some y /\
      ~ is_finite y.
Proof.
  intros G randomInit norm n_rows n_cols w F g' i x Hr HF Hx Hnf.
  destruct (beta_defined n_rows n_cols Hr) as (b & Hb & _).
  eexists. exists (dmul x (ddiv (Fin b) (norm F))).
  split; [apply (Initialize_returned _ _ _ _ _ _ _ _ HF Hb)|].
  cbn [W arma.inplace_mul arma.mem]. split.
  - rewrite nth_error_map, Hx. reflexivity.
  - destruct x as [a| | |]; cbn [is_finite] in Hnf; try tauto;
      destruct (ddiv (Fin b) (norm F)) as [k| | |]; cbn [dmul is_finite];
      try tauto; apply signed_inf_not_finite.
Qed.

Lemma Initialize_non_finite_persists_witness :
  (0 < 1)%N /\
  nth_error [Fin 2; NInf] 1 = Some NInf /\
  ~ is_finite NInf /\
  exists (w' : world (list double)) (y : double),
    Initialize stub_randomInit arma.frobenius 1 2
      (World (construct (Some NInf) (Some (Fin 2))) empty_mat [Fin 2; NInf])
    = Returned w' /\
    nth_error (arma.mem (W w')) 1 = Some y /\
    ~ is_finite y.
Proof.
  split; [lia|]. split; [reflexivity|]. split; [simpl; tauto|].
  apply (Initialize_non_finite_persists (list double) stub_randomInit
           arma.frobenius 1 2
           (World (construct (Some NInf) (Some (Fin 2))) empty_mat
                  [Fin 2; NInf])
           (arma.Mat 1 2 [Fin 2; NInf]) [] 1%nat NInf).
  - lia.
  - reflexivity.
  - reflexivity.
  - simpl; tauto.
Defined.
